(** * Day finder (src/day/main.c): validation of a date and Zeller's congruence

    A shallow embedding of the five functions of [main.c] and of [main],
    whose input is what [scanf] delivered, together with the properties the
    specification states about them.

    The C type [int] is taken to be 32 bits wide, two's complement.  A value
    of type [int] is a [Z]; every arithmetic operator of the source is
    followed by an explicit reduction into the [int] range ([CInt.wrap]).
    ISO C leaves signed overflow undefined; the wrap-around written here is
    what the usual compilers produce, and every statement below that depends
    on it says so. *)

From Stdlib Require Import ZArith Lia List String Ascii Bool DecimalString Znumtheory.
Import ListNotations.

Local Open Scope Z_scope.

(** ** The C type [int] *)

Module CInt.

Definition int_min : Z := -2147483648.
Definition int_max : Z := 2147483647.

Definition in_range (z : Z) : Prop := int_min <= z <= int_max.

Definition in_rangeb (z : Z) : bool := (int_min <=? z) && (z <=? int_max).

(** Reduction of a mathematical integer to its 32-bit signed residue. *)
Definition wrap (z : Z) : Z := (z + 2147483648) mod 4294967296 - 2147483648.

Definition add (a b : Z) : Z := wrap (a + b).
Definition sub (a b : Z) : Z := wrap (a - b).
Definition mul (a b : Z) : Z := wrap (a * b).

(** [/] and [%] of C99: the quotient is truncated towards zero and the
    remainder has the sign of the dividend. *)
Definition div (a b : Z) : Z := wrap (Z.quot a b).
Definition rem (a b : Z) : Z := wrap (Z.rem a b).

End CInt.

(** The operators of [int], written with a trailing [!] to keep them apart
    from the exact operators of [Z]; precedence and associativity as in C. *)
Infix "+!" := CInt.add (at level 50, left associativity).
Infix "-!" := CInt.sub (at level 50, left associativity).
Infix "*!" := CInt.mul (at level 40, left associativity).
Infix "/!" := CInt.div (at level 40, left associativity).
Infix "%!" := CInt.rem (at level 40, left associativity).

(** ** Standard output *)

Definition nl : string := String (ascii_of_nat 10) EmptyString.

Definition string_of_Z (z : Z) : string := NilZero.string_of_int (Z.to_int z).

Inductive printf_arg : Type :=
| ArgInt (z : Z)
| ArgStr (s : string).

Definition render_arg (a : printf_arg) : string :=
  match a with
  | ArgInt z => string_of_Z z
  | ArgStr s => s
  end.

(** [printf] restricted to the two conversions the program uses, [%d] and
    [%s]; the text written is returned.  A conversion without an argument
    writes nothing (no call of the program is in that case). *)
Fixpoint printf (fmt : string) (args : list printf_arg) : string :=
  match fmt with
  | EmptyString => EmptyString
  | String c rest =>
      match c, rest with
      | "%"%char, String k rest' =>
          if (Ascii.eqb k "d" || Ascii.eqb k "s")%bool then
            match args with
            | a :: args' => (render_arg a ++ printf rest' args')%string
            | [] => printf rest' []
            end
          else String c (printf rest args)
      | _, _ => String c (printf rest args)
      end
  end.

(** ** [is_leap] (main.c, lines 18-29) *)

Definition is_leap (year : Z) : Z :=
  if year %! 400 =? 0 then 1
  else if year %! 100 =? 0 then 0
  else if year %! 4 =? 0 then 1
  else 0.

(** ** [get_days_in_month] (main.c, lines 37-58) *)

(** The five [return] statements of the function, in source order. *)
Inductive dim_return : Type :=
| RetInvalidMonth   (* line 39 *)
| RetThirty         (* line 44 *)
| RetThirtyOne      (* line 49 *)
| RetFebruary       (* line 54 *)
| RetFallback.      (* line 57, "Should not happen" *)

(** The function with the [return] statement it leaves through. *)
Definition get_days_in_month_at (month year : Z) : dim_return * Z :=
  if (month <? 1) || (month >? 12) then (RetInvalidMonth, -1)
  else if (month =? 4) || (month =? 6) || (month =? 9) || (month =? 11) then
    (RetThirty, 30)
  else if (month =? 1) || (month =? 3) || (month =? 5) || (month =? 7)
          || (month =? 8) || (month =? 10) || (month =? 12) then
    (RetThirtyOne, 31)
  else if month =? 2 then
    (RetFebruary, if negb (is_leap year =? 0) then 29 else 28)
  else (RetFallback, -1).

Definition get_days_in_month (month year : Z) : Z :=
  snd (get_days_in_month_at month year).

(** ** [is_valid_date] (main.c, lines 67-86) *)

(** The four [return] statements; the last two carry the local [max_day],
    which is initialised only after the month check. *)
Inductive vd_return : Type :=
| RetInvalidYear                 (* line 71 *)
| RetInvalidMonthOfDate          (* line 76 *)
| RetInvalidDay (max_day : Z)    (* line 82 *)
| RetValid (max_day : Z).        (* line 85 *)

Record vd_run : Type := {
  vd_result : bool;
  vd_stdout : string;
  vd_return_at : vd_return
}.

Definition msg_year : string :=
  "Error: Year must be between 1700 and 2500 for this calculation." ++ nl.
Definition msg_month : string :=
  "Error: Month must be between 1 and 12." ++ nl.
Definition fmt_day : string :=
  "Error: Day must be between 1 and %d for %d/%d." ++ nl.

Definition is_valid_date_run (day month year : Z) : vd_run :=
  if (year <? 1700) || (year >? 2500) then
    {| vd_result := false;
       vd_stdout := printf msg_year [];
       vd_return_at := RetInvalidYear |}
  else if (month <? 1) || (month >? 12) then
    {| vd_result := false;
       vd_stdout := printf msg_month [];
       vd_return_at := RetInvalidMonthOfDate |}
  else
    let max_day := get_days_in_month month year in
    if (day <? 1) || (day >? max_day) then
      {| vd_result := false;
         vd_stdout := printf fmt_day [ArgInt max_day; ArgInt month; ArgInt year];
         vd_return_at := RetInvalidDay max_day |}
    else
      {| vd_result := true;
         vd_stdout := EmptyString;
         vd_return_at := RetValid max_day |}.

Definition is_valid_date (day month year : Z) : bool :=
  vd_result (is_valid_date_run day month year).

(** The text of the third diagnostic once [printf] has filled it in. *)
Definition day_message (max_day month year : Z) : string :=
  "Error: Day must be between 1 and " ++ string_of_Z max_day
  ++ " for " ++ string_of_Z month ++ "/" ++ string_of_Z year ++ "." ++ nl.

(** ** [calculate_day_of_week] (main.c, lines 96-146) *)

Definition calculate_day_of_week (day month year : Z) : Z :=
  let '(month, year) :=
    if month =? 1 then (13, year -! 1)
    else if month =? 2 then (14, year -! 1)
    else (month, year) in
  let D := year %! 100 in
  let C := year /! 100 in
  let day_index :=
    (day +! (13 *! (month +! 1)) /! 5 +! D +! D /! 4 +! C /! 4 +! 5 *! C) %! 7 in
  let h :=
    (day +! ((13 *! (month +! 1)) /! 5) +! D +! (D /! 4) +! (C /! 4) +! 5 *! C) %! 7 in
  h.

(** ** [print_day_name] (main.c, lines 152-164) *)

Definition day_names : list string :=
  ["Saturday"; "Sunday"; "Monday"; "Tuesday";
   "Wednesday"; "Thursday"; "Friday"]%string.

(** Reading [a[i]]: [None] stands for an access outside the array. *)
Definition array_get {A : Type} (a : list A) (i : Z) : option A :=
  if i <? 0 then None else nth_error a (Z.to_nat i).

Definition fmt_day_name : string := "The day of the week was: %s" ++ nl.
Definition msg_bad_index : string := "Error: Invalid day index calculated." ++ nl.

(** The text written, or [None] if the array is read out of bounds. *)
Definition print_day_name (day_index : Z) : option string :=
  if (day_index >=? 0) && (day_index <=? 6) then
    match array_get day_names day_index with
    | Some name => Some (printf fmt_day_name [ArgStr name])
    | None => None
    end
  else Some (printf msg_bad_index []).

(** ** [main] (main.c, lines 169-197) *)

Definition msg_banner : string := "--- Day of the Week Calculator ---" ++ nl.
Definition msg_prompt : string :=
  "Enter a date in the format DD/MM/YYYY (e.g., 15/10/2025): ".
Definition msg_input_error : string :=
  "Input Error: Please ensure the format is exactly DD/MM/YYYY with numbers." ++ nl.
Definition msg_exiting : string := "Exiting program due to invalid date." ++ nl.
Definition msg_result : string := nl ++ "--- Result ---" ++ nl.
Definition fmt_date : string := "Date entered: %d/%d/%d" ++ nl.
Definition msg_rule : string := "----------------" ++ nl.

(** [scanned] is what [scanf("%d/%d/%d", ...)] stored: [None] when it did
    not convert three integers.  The result is the text written and the
    exit status; [None] if [print_day_name] reads outside its array. *)
Definition main (scanned : option (Z * Z * Z)) : option (string * Z) :=
  let out := (printf msg_banner [] ++ printf msg_prompt [])%string in
  match scanned with
  | None => Some ((out ++ printf msg_input_error [])%string, 1)
  | Some (day, month, year) =>
      let v := is_valid_date_run day month year in
      let out := (out ++ vd_stdout v)%string in
      if negb (vd_result v) then Some ((out ++ printf msg_exiting [])%string, 1)
      else
        let day_index := calculate_day_of_week day month year in
        let out := (out ++ printf msg_result [])%string in
        let out :=
          (out ++ printf fmt_date [ArgInt day; ArgInt month; ArgInt year])%string in
        match print_day_name day_index with
        | None => None
        | Some text => Some ((out ++ text ++ printf msg_rule [])%string, 0)
        end
  end.

(** ** [calculate_day_of_week] with overflow made explicit

    The same function, every [int] operator checked: the result is [None] as
    soon as the exact value of an operation leaves the [int] range, the case
    ISO C leaves undefined. *)

Module Checked.

Definition ret (z : Z) : option Z := if CInt.in_rangeb z then Some z else None.

Definition bind {A B : Type} (c : option A) (k : A -> option B) : option B :=
  match c with
  | Some a => k a
  | None => None
  end.

Definition add (a b : Z) : option Z := ret (a + b).
Definition sub (a b : Z) : option Z := ret (a - b).
Definition mul (a b : Z) : option Z := ret (a * b).
Definition div (a b : Z) : option Z := if b =? 0 then None else ret (Z.quot a b).
Definition rem (a b : Z) : option Z :=
  if b =? 0 then None else bind (ret (Z.quot a b)) (fun _ => ret (Z.rem a b)).

End Checked.

Notation "x <- c ;; k" := (Checked.bind c (fun x => k))
  (at level 61, c at next level, right associativity).

(** Lines 114-145, after the month and the year have been shifted. *)
Definition zeller_checked (day month year : Z) : option Z :=
  D <- Checked.rem year 100 ;;
  C <- Checked.div year 100 ;;
  m1 <- Checked.add month 1 ;;
  m13 <- Checked.mul 13 m1 ;;
  q <- Checked.div m13 5 ;;
  s1 <- Checked.add day q ;;
  s2 <- Checked.add s1 D ;;
  d4 <- Checked.div D 4 ;;
  s3 <- Checked.add s2 d4 ;;
  c4 <- Checked.div C 4 ;;
  s4 <- Checked.add s3 c4 ;;
  c5 <- Checked.mul 5 C ;;
  s5 <- Checked.add s4 c5 ;;
  Checked.rem s5 7.

Definition calculate_day_of_week_checked (day month year : Z) : option Z :=
  if month =? 1 then
    y <- Checked.sub year 1 ;; zeller_checked day 13 y
  else if month =? 2 then
    y <- Checked.sub year 1 ;; zeller_checked day 14 y
  else zeller_checked day month year.

(** No [int] operation of [calculate_day_of_week] overflows. *)
Definition no_overflow (day month year : Z) : Prop :=
  calculate_day_of_week_checked day month year <> None.

(** ** The specification's own words (spec.md, sections 3, 4.1 and 8) *)

Module Spec.

(** "divisible by 400, or divisible by 4 but not by 100" *)
Definition isLeapYear (year : Z) : Prop :=
  (400 | year) \/ ((4 | year) /\ ~ (100 | year)).

Definition isLeapYearb (year : Z) : bool :=
  (year mod 400 =? 0) || ((year mod 4 =? 0) && negb (year mod 100 =? 0)).

(** The standard calendar table. *)
Definition month_length (month year : Z) : Z :=
  match month with
  | 1 => 31 | 2 => if isLeapYearb year then 29 else 28 | 3 => 31
  | 4 => 30 | 5 => 31 | 6 => 30 | 7 => 31 | 8 => 31 | 9 => 30
  | 10 => 31 | 11 => 30 | 12 => 31
  | _ => 0
  end.

(** "m in [1,12] and 1 <= d <= number of days of m in y" *)
Definition valid_gregorian_date (d m y : Z) : Prop :=
  1 <= m <= 12 /\ 1 <= d <= month_length m y.

(** Steps 1 to 3 of the algorithm of [computeWeekday], on exact integers,
    division truncating and the remainder that goes with it. *)
Definition computeWeekday (day month year : Z) : Z :=
  let '(month, year) :=
    if month =? 1 then (13, year - 1) else (month, year) in
  let '(month, year) :=
    if month =? 2 then (14, year - 1) else (month, year) in
  let C := year ÷ 100 in
  let D := Z.rem year 100 in
  Z.rem (day + (13 * (month + 1)) ÷ 5 + D + D ÷ 4 + C ÷ 4 + 5 * C) 7.

(** WeekdayIndex: "0=Saturday, 1=Sunday, ..., 6=Friday". *)
Inductive weekday : Type :=
| Saturday | Sunday | Monday | Tuesday | Wednesday | Thursday | Friday.

Definition weekday_of_index (h : Z) : option weekday :=
  match h with
  | 0 => Some Saturday | 1 => Some Sunday | 2 => Some Monday
  | 3 => Some Tuesday | 4 => Some Wednesday | 5 => Some Thursday
  | 6 => Some Friday
  | _ => None
  end.

Definition weekday_name (w : weekday) : string :=
  match w with
  | Saturday => "Saturday" | Sunday => "Sunday" | Monday => "Monday"
  | Tuesday => "Tuesday" | Wednesday => "Wednesday"
  | Thursday => "Thursday" | Friday => "Friday"
  end.

(** An independent calendar calculation: days are counted one year and one
    month at a time from 1 January 1700, and the weekday is read off from
    the distance to 1 January 2000, a Saturday. *)
Definition year_length (year : Z) : Z := if isLeapYearb year then 366 else 365.

Fixpoint days_in_years (n : nat) (from : Z) : Z :=
  match n with
  | O => 0
  | S k => year_length from + days_in_years k (from + 1)
  end.

Fixpoint days_in_months (n : nat) (from year : Z) : Z :=
  match n with
  | O => 0
  | S k => month_length from year + days_in_months k (from + 1) year
  end.

Definition day_number (d m y : Z) : Z :=
  days_in_years (Z.to_nat (y - 1700)) 1700
  + days_in_months (Z.to_nat (m - 1)) 1 y
  + (d - 1).

Definition reference_weekday (d m y : Z) : Z :=
  (day_number d m y - day_number 1 1 2000) mod 7.

End Spec.

(** ** The form named in the comments of [calculate_day_of_week]

    Lines 130-132 of main.c: "Using this common simplified form:
    day_index = (day + (13*(month+1))/5 + D + D/4 + C/4 - 2*C) % 7; The 5*C
    adjustment makes it congruent".  The sum of that form, on exact
    integers, after the shift of lines 98-104. *)
Definition common_simplified_sum (day month year : Z) : Z :=
  let '(month, year) :=
    if month =? 1 then (13, year - 1)
    else if month =? 2 then (14, year - 1)
    else (month, year) in
  let D := Z.rem year 100 in
  let C := year ÷ 100 in
  day + (13 * (month + 1)) ÷ 5 + D + D ÷ 4 + C ÷ 4 - 2 * C.

(** ** The supported dates, enumerated *)

(** The [n] integers from [lo] upwards. *)
Definition Zrange (lo : Z) (n : nat) : list Z :=
  map (fun k => lo + Z.of_nat k) (seq 0 n).

(** * Properties *)

(** ** Arithmetic of [int] *)

Lemma in_rangeb_iff (z : Z) : CInt.in_rangeb z = true <-> CInt.in_range z.
Proof.
  unfold CInt.in_rangeb, CInt.in_range.
  rewrite Bool.andb_true_iff, !Z.leb_le. tauto.
Qed.

Lemma wrap_in_range (z : Z) : CInt.in_range z -> CInt.wrap z = z.
Proof.
  unfold CInt.in_range, CInt.int_min, CInt.int_max, CInt.wrap. intros Hz.
  rewrite Z.mod_small; lia.
Qed.

Lemma wrap_range (z : Z) : CInt.in_range (CInt.wrap z).
Proof.
  unfold CInt.in_range, CInt.int_min, CInt.int_max, CInt.wrap.
  pose proof (Z.mod_pos_bound (z + 2147483648) 4294967296 eq_refl). lia.
Qed.

(** With a divisor that is a positive [int], [%] is the exact remainder. *)
Lemma rem_exact (a b : Z) : 0 < b <= CInt.int_max -> a %! b = Z.rem a b.
Proof.
  intros Hb. unfold CInt.rem. apply wrap_in_range.
  pose proof (Z.rem_bound_abs a b ltac:(lia)).
  unfold CInt.in_range, CInt.int_min, CInt.int_max in *. lia.
Qed.

(** With a positive divisor, [/] is exact on every [int]. *)
Lemma div_exact (a b : Z) : CInt.in_range a -> 0 < b -> a /! b = a ÷ b.
Proof.
  intros Ha Hb. unfold CInt.div. apply wrap_in_range.
  unfold CInt.in_range, CInt.int_min, CInt.int_max in *.
  destruct (Z.le_gt_cases 0 a) as [Hpos | Hneg].
  - pose proof (Z.quot_pos a b Hpos Hb).
    pose proof (Z.quot_le_upper_bound a b a Hb ltac:(nia)). lia.
  - assert (Hopp : a ÷ b = - ((- a) ÷ b)).
    { rewrite Z.quot_opp_l by lia. lia. }
    pose proof (Z.quot_pos (- a) b ltac:(lia) Hb).
    pose proof (Z.quot_le_upper_bound (- a) b (- a) Hb ltac:(nia)). lia.
Qed.

(** ** [is_leap] *)

Lemma is_leap_cases (year : Z) :
  is_leap year =
  if Z.rem year 400 =? 0 then 1
  else if Z.rem year 100 =? 0 then 0
  else if Z.rem year 4 =? 0 then 1 else 0.
Proof.
  unfold is_leap. rewrite !rem_exact by (unfold CInt.int_max; lia). reflexivity.
Qed.

Lemma is_leap_bit (year : Z) : is_leap year = 0 \/ is_leap year = 1.
Proof.
  rewrite is_leap_cases.
  destruct (Z.rem year 400 =? 0), (Z.rem year 100 =? 0), (Z.rem year 4 =? 0); auto.
Qed.

Lemma is_leap_divisibility (year : Z) :
  is_leap year = 1 <-> Spec.isLeapYear year.
Proof.
  rewrite is_leap_cases. unfold Spec.isLeapYear.
  assert (H4_100 : (4 | 100)) by (exists 25; reflexivity).
  assert (H100_400 : (100 | 400)) by (exists 4; reflexivity).
  pose proof (Z.rem_divide year 400 ltac:(lia)) as D400.
  pose proof (Z.rem_divide year 100 ltac:(lia)) as D100.
  pose proof (Z.rem_divide year 4 ltac:(lia)) as D4.
  destruct (Z.eqb_spec (Z.rem year 400) 0) as [E400 | E400].
  - split; [intros _ | reflexivity]. left. tauto.
  - destruct (Z.eqb_spec (Z.rem year 100) 0) as [E100 | E100].
    + split; [discriminate |]. intros [H | [_ H]]; tauto.
    + destruct (Z.eqb_spec (Z.rem year 4) 0) as [E4 | E4].
      * split; [intros _ | reflexivity]. right. tauto.
      * split; [discriminate |].
        intros [H | [H _]]; [| tauto].
        exfalso. apply E4, D4.
        apply Z.divide_trans with 100; [assumption |].
        apply Z.divide_trans with 400; assumption.
Qed.

Lemma isLeapYearb_iff (year : Z) :
  Spec.isLeapYearb year = true <-> Spec.isLeapYear year.
Proof.
  unfold Spec.isLeapYearb, Spec.isLeapYear.
  rewrite Bool.orb_true_iff, Bool.andb_true_iff, Bool.negb_true_iff.
  rewrite <- Bool.not_true_iff_false, !Z.eqb_eq.
  rewrite !Z.mod_divide by lia. tauto.
Qed.

(** C4.  For every year, [is_leap] answers 1 exactly when the year is
    divisible by 400, or divisible by 4 but not by 100, and answers 0
    otherwise.  The function is total on [Z] and has no other result, so it
    has no failure mode; the values the specification lists are as stated. *)
Theorem is_leap_correct :
  (forall year : Z,
      (is_leap year = 1 <-> Spec.isLeapYear year)
      /\ (is_leap year = 0 <-> ~ Spec.isLeapYear year))
  /\ is_leap 2000 = 1 /\ is_leap 2024 = 1
  /\ is_leap 1900 = 0 /\ is_leap 2023 = 0.
Proof.
  split; [| repeat split; reflexivity].
  intros year. pose proof (is_leap_divisibility year) as Hleap.
  split; [assumption |].
  destruct (is_leap_bit year) as [E | E]; rewrite E in *.
  - split; [| reflexivity]. intros _ H. apply Hleap in H. discriminate.
  - split; [discriminate |]. intros H. exfalso. apply H, Hleap. reflexivity.
Qed.

(** ** [get_days_in_month] *)

(** Case analysis on a month: below 1, one of the twelve, or above 12. *)
Ltac month_cases m :=
  let H := fresh "Hm" in
  assert (H : m < 1 \/ m = 1 \/ m = 2 \/ m = 3 \/ m = 4 \/ m = 5 \/ m = 6
              \/ m = 7 \/ m = 8 \/ m = 9 \/ m = 10 \/ m = 11 \/ m = 12
              \/ m > 12) by lia;
  repeat (destruct H as [H | H]); try subst m.

Lemma get_days_in_month_at_outside (month year : Z) :
  month < 1 \/ month > 12 ->
  get_days_in_month_at month year = (RetInvalidMonth, -1).
Proof.
  intros H. unfold get_days_in_month_at.
  destruct (Z.ltb_spec month 1); [reflexivity |].
  destruct (Z.gtb_spec month 12); [reflexivity | lia].
Qed.

Lemma get_days_in_month_february (year : Z) :
  get_days_in_month 2 year = if is_leap year =? 0 then 28 else 29.
Proof.
  unfold get_days_in_month, get_days_in_month_at. simpl.
  destruct (is_leap year =? 0); reflexivity.
Qed.

(** The source's table is the standard calendar table. *)
Lemma get_days_in_month_length (month year : Z) :
  1 <= month <= 12 ->
  get_days_in_month month year = Spec.month_length month year.
Proof.
  intros Hr. month_cases month; try lia; try reflexivity.
  rewrite get_days_in_month_february. simpl.
  pose proof (is_leap_divisibility year) as Hl.
  rewrite <- isLeapYearb_iff in Hl.
  destruct (is_leap_bit year) as [E | E]; rewrite E in *; simpl.
  - destruct (Spec.isLeapYearb year); [| reflexivity].
    destruct Hl as [_ Hl]. discriminate (Hl eq_refl).
  - destruct Hl as [Hl _]. rewrite (Hl eq_refl). reflexivity.
Qed.

(** C5.  [get_days_in_month] returns 31 for months 1, 3, 5, 7, 8, 10 and 12,
    30 for months 4, 6, 9 and 11, for February 29 when [is_leap] holds of
    the year and 28 when it does not, and the sentinel -1 for every month
    outside 1..12; the values the specification lists are as stated. *)
Theorem get_days_in_month_table (month year : Z) :
  (In month [1; 3; 5; 7; 8; 10; 12] -> get_days_in_month month year = 31)
  /\ (In month [4; 6; 9; 11] -> get_days_in_month month year = 30)
  /\ (month = 2 -> is_leap year = 1 -> get_days_in_month month year = 29)
  /\ (month = 2 -> is_leap year = 0 -> get_days_in_month month year = 28)
  /\ (month < 1 \/ month > 12 -> get_days_in_month month year = -1)
  /\ get_days_in_month 2 2024 = 29 /\ get_days_in_month 2 1900 = 28
  /\ get_days_in_month 4 year = 30 /\ get_days_in_month 1 year = 31.
Proof.
  repeat split; try reflexivity.
  - simpl. intros H. repeat (destruct H as [H | H]; [subst; reflexivity |]). tauto.
  - simpl. intros H. repeat (destruct H as [H | H]; [subst; reflexivity |]). tauto.
  - intros -> E. rewrite get_days_in_month_february, E. reflexivity.
  - intros -> E. rewrite get_days_in_month_february, E. reflexivity.
  - intros H. unfold get_days_in_month.
    rewrite get_days_in_month_at_outside by assumption. reflexivity.
Qed.

Lemma get_days_in_month_table_witness :
  get_days_in_month 7 2025 = 31 /\ get_days_in_month 11 2025 = 30
  /\ get_days_in_month 2 2000 = 29 /\ get_days_in_month 2 2100 = 28
  /\ get_days_in_month 0 2025 = -1 /\ get_days_in_month 13 2025 = -1.
Proof.
  refine (conj _ (conj _ (conj _ (conj _ (conj _ _))))).
  - destruct (get_days_in_month_table 7 2025) as [H _].
    apply H. simpl. tauto.
  - destruct (get_days_in_month_table 11 2025) as [_ [H _]].
    apply H. simpl. tauto.
  - destruct (get_days_in_month_table 2 2000) as [_ [_ [H _]]].
    apply H; reflexivity.
  - destruct (get_days_in_month_table 2 2100) as [_ [_ [_ [H _]]]].
    apply H; reflexivity.
  - destruct (get_days_in_month_table 0 2025) as [_ [_ [_ [_ [H _]]]]].
    apply H. lia.
  - destruct (get_days_in_month_table 13 2025) as [_ [_ [_ [_ [H _]]]]].
    apply H. lia.
Defined.

(** C10.  Whatever the month and the year, [get_days_in_month] never leaves
    through its last [return] (line 57): that statement is unreachable.  For
    a month in 1..12 the result is one of 28, 29, 30, 31, hence positive. *)
Theorem get_days_in_month_fallback_unreachable (month year : Z) :
  fst (get_days_in_month_at month year) <> RetFallback
  /\ (1 <= month <= 12 ->
      In (get_days_in_month month year) [28; 29; 30; 31]
      /\ 0 < get_days_in_month month year
      /\ fst (get_days_in_month_at month year) <> RetInvalidMonth).
Proof.
  split.
  - month_cases month;
      try (rewrite get_days_in_month_at_outside by lia); simpl; discriminate.
  - intros Hr. month_cases month; try lia;
      try (unfold get_days_in_month, get_days_in_month_at; simpl;
           split; [tauto | split; [lia | discriminate]]).
    rewrite get_days_in_month_february.
    split; [| split; [| simpl; discriminate]];
      destruct (is_leap year =? 0); simpl; try tauto; lia.
Qed.

Lemma get_days_in_month_fallback_unreachable_witness :
  1 <= 2 <= 12
  /\ In (get_days_in_month 2 2024) [28; 29; 30; 31]
  /\ 0 < get_days_in_month 2 2024.
Proof.
  assert (H : 1 <= 2 <= 12) by lia.
  split; [exact H |].
  destruct (get_days_in_month_fallback_unreachable 2 2024) as [_ Hin].
  destruct (Hin H) as [H1 [H2 _]]. split; assumption.
Defined.

(** ** [is_valid_date] *)

Lemma printf_fmt_day (max_day month year : Z) :
  printf fmt_day [ArgInt max_day; ArgInt month; ArgInt year]
  = day_message max_day month year.
Proof. reflexivity. Qed.

(** The three ways through [is_valid_date_run], by the outcome of its tests. *)
Lemma is_valid_date_run_year (day month year : Z) :
  year < 1700 \/ year > 2500 ->
  is_valid_date_run day month year
  = {| vd_result := false; vd_stdout := msg_year;
       vd_return_at := RetInvalidYear |}.
Proof.
  intros H. unfold is_valid_date_run.
  destruct (Z.ltb_spec year 1700); [reflexivity |].
  destruct (Z.gtb_spec year 2500); [reflexivity | lia].
Qed.

Lemma is_valid_date_run_month (day month year : Z) :
  1700 <= year <= 2500 -> month < 1 \/ month > 12 ->
  is_valid_date_run day month year
  = {| vd_result := false; vd_stdout := msg_month;
       vd_return_at := RetInvalidMonthOfDate |}.
Proof.
  intros Hy H. unfold is_valid_date_run.
  destruct (Z.ltb_spec year 1700); [lia |].
  destruct (Z.gtb_spec year 2500); [lia |]. simpl.
  destruct (Z.ltb_spec month 1); [reflexivity |].
  destruct (Z.gtb_spec month 12); [reflexivity | lia].
Qed.

Lemma is_valid_date_run_day (day month year : Z) :
  1700 <= year <= 2500 -> 1 <= month <= 12 ->
  is_valid_date_run day month year
  = let max_day := get_days_in_month month year in
    if (day <? 1) || (day >? max_day) then
      {| vd_result := false; vd_stdout := day_message max_day month year;
         vd_return_at := RetInvalidDay max_day |}
    else
      {| vd_result := true; vd_stdout := EmptyString;
         vd_return_at := RetValid max_day |}.
Proof.
  intros Hy Hm. unfold is_valid_date_run.
  destruct (Z.ltb_spec year 1700); [lia |].
  destruct (Z.gtb_spec year 2500); [lia |]. simpl.
  destruct (Z.ltb_spec month 1); [lia |].
  destruct (Z.gtb_spec month 12); [lia |]. simpl.
  reflexivity.
Qed.

(** Which of the three situations a date is in. *)
Lemma date_situation (month year : Z) :
  (year < 1700 \/ year > 2500)
  \/ (1700 <= year <= 2500 /\ (month < 1 \/ month > 12))
  \/ (1700 <= year <= 2500 /\ 1 <= month <= 12).
Proof. lia. Qed.

Lemma day_test (day max_day : Z) :
  (day <? 1) || (day >? max_day) = true <-> day < 1 \/ day > max_day.
Proof.
  rewrite Bool.orb_true_iff, Z.ltb_lt, Z.gtb_gt. tauto.
Qed.

(** C3.  [is_valid_date] returns false when the year is outside
    [1700, 2500], false when the month is outside [1, 12], false when the
    day is below 1 or above [get_days_in_month month year], and true exactly
    when the three checks pass.  A date that is accepted writes nothing; a
    date that is refused writes one diagnostic, which names a constraint the
    date violates, and the diagnostic for the day contains the maximum day
    that was computed. *)
Theorem is_valid_date_contract (day month year : Z) :
  let r := is_valid_date_run day month year in
  let max_day := get_days_in_month month year in
  (year < 1700 \/ year > 2500 -> is_valid_date day month year = false)
  /\ (month < 1 \/ month > 12 -> is_valid_date day month year = false)
  /\ (day < 1 \/ day > max_day -> is_valid_date day month year = false)
  /\ (is_valid_date day month year = true <->
      1700 <= year <= 2500 /\ 1 <= month <= 12 /\ 1 <= day <= max_day)
  /\ (is_valid_date day month year = true -> vd_stdout r = EmptyString)
  /\ (is_valid_date day month year = false ->
      (vd_stdout r = msg_year /\ (year < 1700 \/ year > 2500))
      \/ (vd_stdout r = msg_month /\ (month < 1 \/ month > 12))
      \/ (vd_stdout r = day_message max_day month year
          /\ (day < 1 \/ day > max_day))).
Proof.
  unfold is_valid_date. cbv zeta.
  destruct (date_situation month year) as [Hy | [[Hy Hm] | [Hy Hm]]].
  - rewrite is_valid_date_run_year by assumption. simpl.
    repeat split; try discriminate; try lia; auto.
  - rewrite is_valid_date_run_month by assumption. simpl.
    repeat split; try discriminate; try lia; auto.
  - rewrite is_valid_date_run_day by assumption. cbv zeta.
    pose proof (day_test day (get_days_in_month month year)) as Ht.
    destruct ((day <? 1) || (day >? get_days_in_month month year)); simpl.
    + assert (Hd : day < 1 \/ day > get_days_in_month month year)
        by (apply Ht; reflexivity).
      repeat split; try discriminate; try lia; auto.
    + assert (Hd : ~ (day < 1 \/ day > get_days_in_month month year))
        by (intros Hd; apply Ht in Hd; discriminate).
      repeat split; try discriminate; try lia; auto.
Qed.

Lemma is_valid_date_contract_witness :
  is_valid_date 15 10 1699 = false
  /\ is_valid_date 15 13 2025 = false
  /\ is_valid_date 31 2 2025 = false
  /\ vd_stdout (is_valid_date_run 15 10 2025) = EmptyString
  /\ ((vd_stdout (is_valid_date_run 31 2 2025) = msg_year
       /\ (2025 < 1700 \/ 2025 > 2500))
      \/ (vd_stdout (is_valid_date_run 31 2 2025) = msg_month
          /\ (2 < 1 \/ 2 > 12))
      \/ (vd_stdout (is_valid_date_run 31 2 2025)
          = day_message (get_days_in_month 2 2025) 2 2025
          /\ (31 < 1 \/ 31 > get_days_in_month 2 2025))).
Proof.
  refine (conj _ (conj _ (conj _ (conj _ _)))).
  - destruct (is_valid_date_contract 15 10 1699) as [H _]. apply H. lia.
  - destruct (is_valid_date_contract 15 13 2025) as [_ [H _]]. apply H. lia.
  - destruct (is_valid_date_contract 31 2 2025) as [_ [_ [H _]]].
    apply H. right. vm_compute. reflexivity.
  - destruct (is_valid_date_contract 15 10 2025) as [_ [_ [_ [_ [H _]]]]].
    apply H. reflexivity.
  - destruct (is_valid_date_contract 31 2 2025) as [_ [_ [_ [_ [_ H]]]]].
    apply H. reflexivity.
Defined.

(** C8.  The three boundary dates of the specification are refused: 29
    February 2023 because 2023 is not a leap year (February has 28 days),
    31 April 2025 because April has 30 days, 1 January 1699 because the year
    is below 1700. *)
Theorem is_valid_date_boundaries :
  (is_valid_date 29 2 2023 = false
   /\ is_leap 2023 = 0
   /\ vd_return_at (is_valid_date_run 29 2 2023) = RetInvalidDay 28)
  /\ (is_valid_date 31 4 2025 = false
      /\ vd_return_at (is_valid_date_run 31 4 2025) = RetInvalidDay 30)
  /\ (is_valid_date 1 1 1699 = false
      /\ vd_return_at (is_valid_date_run 1 1 1699) = RetInvalidYear).
Proof. repeat split; reflexivity. Qed.

(** C9.  [is_valid_date] tests the year, then the month, then the day, and
    writes the diagnostic of the first test that fails and nothing else: a
    year out of range gives the year diagnostic whatever the month and the
    day, and with the year in range a month out of range gives the month
    diagnostic whatever the day.  [max_day] exists only at the last two
    [return] statements, and there the month is in [1, 12] and [max_day] is
    the result of [get_days_in_month], between 28 and 31: the sentinel -1
    is never compared with the day and never written. *)
Theorem is_valid_date_check_order (day month year : Z) :
  let r := is_valid_date_run day month year in
  (year < 1700 \/ year > 2500 ->
   vd_return_at r = RetInvalidYear /\ vd_stdout r = msg_year)
  /\ (1700 <= year <= 2500 -> month < 1 \/ month > 12 ->
      vd_return_at r = RetInvalidMonthOfDate /\ vd_stdout r = msg_month)
  /\ (forall max_day : Z,
         vd_return_at r = RetInvalidDay max_day
         \/ vd_return_at r = RetValid max_day ->
         1700 <= year <= 2500 /\ 1 <= month <= 12
         /\ max_day = get_days_in_month month year
         /\ 28 <= max_day <= 31)
  /\ (forall max_day : Z,
         vd_return_at r = RetInvalidDay max_day ->
         (day < 1 \/ day > max_day)
         /\ vd_stdout r = day_message max_day month year)
  /\ (forall max_day : Z,
         vd_return_at r = RetValid max_day ->
         1 <= day <= max_day /\ vd_stdout r = EmptyString).
Proof.
  cbv zeta.
  destruct (date_situation month year) as [Hy | [[Hy Hm] | [Hy Hm]]].
  - rewrite is_valid_date_run_year by assumption. simpl.
    repeat split; try discriminate; try lia; intros; intuition congruence.
  - rewrite is_valid_date_run_month by assumption. simpl.
    repeat split; try discriminate; try lia; intros; intuition congruence.
  - rewrite is_valid_date_run_day by assumption. cbv zeta.
    destruct (get_days_in_month_fallback_unreachable month year) as [_ Hin].
    destruct (Hin Hm) as [Hin' _]. clear Hin.
    assert (Hmax : 28 <= get_days_in_month month year <= 31).
    { simpl in Hin'. lia. }
    pose proof (day_test day (get_days_in_month month year)) as Ht.
    destruct ((day <? 1) || (day >? get_days_in_month month year)); simpl.
    + assert (Hd : day < 1 \/ day > get_days_in_month month year)
        by (apply Ht; reflexivity).
      split; [lia |]. split; [lia |].
      split; [| split].
      * intros max_day [H | H]; inversion H; subst. repeat split; lia.
      * intros max_day H; inversion H; subst. split; [assumption | reflexivity].
      * intros max_day H; discriminate.
    + assert (Hd : ~ (day < 1 \/ day > get_days_in_month month year))
        by (intros Hd; apply Ht in Hd; discriminate).
      split; [lia |]. split; [lia |].
      split; [| split].
      * intros max_day [H | H]; inversion H; subst. repeat split; lia.
      * intros max_day H; discriminate.
      * intros max_day H; inversion H; subst. split; [lia | reflexivity].
Qed.

Lemma is_valid_date_check_order_witness :
  (vd_return_at (is_valid_date_run 99 99 1699) = RetInvalidYear
   /\ vd_stdout (is_valid_date_run 99 99 1699) = msg_year)
  /\ (vd_return_at (is_valid_date_run 99 13 2025) = RetInvalidMonthOfDate
      /\ vd_stdout (is_valid_date_run 99 13 2025) = msg_month)
  /\ (1700 <= 2025 <= 2500 /\ 1 <= 2 <= 12
      /\ 28 = get_days_in_month 2 2025 /\ 28 <= 28 <= 31)
  /\ ((31 < 1 \/ 31 > 28)
      /\ vd_stdout (is_valid_date_run 31 2 2025) = day_message 28 2 2025)
  /\ (1 <= 15 <= 31 /\ vd_stdout (is_valid_date_run 15 10 2025) = EmptyString).
Proof.
  refine (conj _ (conj _ (conj _ (conj _ _)))).
  - destruct (is_valid_date_check_order 99 99 1699) as [H _]. apply H. lia.
  - destruct (is_valid_date_check_order 99 13 2025) as [_ [H _]].
    apply H; lia.
  - destruct (is_valid_date_check_order 31 2 2025) as [_ [_ [H _]]].
    apply (H 28). left. reflexivity.
  - destruct (is_valid_date_check_order 31 2 2025) as [_ [_ [_ [H _]]]].
    apply (H 28). reflexivity.
  - destruct (is_valid_date_check_order 15 10 2025) as [_ [_ [_ [_ H]]]].
    apply (H 31). reflexivity.
Defined.

(** ** [calculate_day_of_week] *)

Lemma checked_ret_inv (z v : Z) :
  Checked.ret z = Some v -> v = z /\ CInt.wrap z = z.
Proof.
  unfold Checked.ret. destruct (CInt.in_rangeb z) eqn:E; [| discriminate].
  intros [= <-]. split; [reflexivity |].
  apply wrap_in_range, in_rangeb_iff, E.
Qed.

Lemma checked_ret_in_range (z : Z) : CInt.in_range z -> Checked.ret z = Some z.
Proof.
  intros H. apply in_rangeb_iff in H. unfold Checked.ret. rewrite H. reflexivity.
Qed.

Lemma checked_add_inv (a b v : Z) :
  Checked.add a b = Some v -> v = a + b /\ a +! b = a + b.
Proof. apply checked_ret_inv. Qed.

Lemma checked_sub_inv (a b v : Z) :
  Checked.sub a b = Some v -> v = a - b /\ a -! b = a - b.
Proof. apply checked_ret_inv. Qed.

Lemma checked_mul_inv (a b v : Z) :
  Checked.mul a b = Some v -> v = a * b /\ a *! b = a * b.
Proof. apply checked_ret_inv. Qed.

Lemma checked_div_inv (a b v : Z) :
  Checked.div a b = Some v -> v = a ÷ b /\ a /! b = a ÷ b.
Proof.
  unfold Checked.div. destruct (b =? 0); [discriminate |]. apply checked_ret_inv.
Qed.

Lemma checked_rem_inv (a b v : Z) :
  Checked.rem a b = Some v -> v = Z.rem a b /\ a %! b = Z.rem a b.
Proof.
  unfold Checked.rem, Checked.bind. destruct (b =? 0); [discriminate |].
  destruct (Checked.ret (a ÷ b)); [| discriminate]. apply checked_ret_inv.
Qed.

(** One step of a checked computation that succeeded: the operation at its
    head returned the exact value, and so did the wrapping operator. *)
Ltac checked_step H :=
  match type of H with
  | Checked.bind ?c _ = Some _ =>
      let v := fresh "v" in
      let E := fresh "E" in
      destruct c as [v |] eqn:E; [| discriminate H];
      unfold Checked.bind at 1 in H;
      lazymatch type of E with
      | Checked.add _ _ = _ => apply checked_add_inv in E
      | Checked.sub _ _ = _ => apply checked_sub_inv in E
      | Checked.mul _ _ = _ => apply checked_mul_inv in E
      | Checked.div _ _ = _ => apply checked_div_inv in E
      | Checked.rem _ _ = _ => apply checked_rem_inv in E
      end;
      let Ev := fresh "Ev" in
      destruct E as [Ev E]; subst v; rewrite E
  end.

Lemma zeller_checked_sound (day month year h : Z) :
  zeller_checked day month year = Some h ->
  (day +! (13 *! (month +! 1)) /! 5 +! year %! 100 +! (year %! 100) /! 4
   +! (year /! 100) /! 4 +! 5 *! (year /! 100)) %! 7 = h
  /\ Z.rem (day + (13 * (month + 1)) ÷ 5 + Z.rem year 100 + Z.rem year 100 ÷ 4
            + year ÷ 100 ÷ 4 + 5 * (year ÷ 100)) 7 = h.
Proof.
  unfold zeller_checked. intros H.
  repeat checked_step H.
  apply checked_rem_inv in H. destruct H as [-> H]. rewrite H.
  split; reflexivity.
Qed.

Lemma calculate_day_of_week_checked_sound (day month year h : Z) :
  calculate_day_of_week_checked day month year = Some h ->
  calculate_day_of_week day month year = h
  /\ Spec.computeWeekday day month year = h.
Proof.
  unfold calculate_day_of_week_checked, calculate_day_of_week,
    Spec.computeWeekday.
  destruct (Z.eqb_spec month 1) as [-> | Hm1].
  - intros H. checked_step H. change (13 =? 2) with false. cbv beta iota.
    apply zeller_checked_sound, H.
  - destruct (Z.eqb_spec month 2) as [-> | Hm2].
    + intros H. checked_step H. change (2 =? 2) with true. cbv beta iota.
      apply zeller_checked_sound, H.
    + intros H. destruct (Z.eqb_spec month 2) as [| _]; [contradiction |].
      cbv beta iota. apply zeller_checked_sound, H.
Qed.

Lemma checked_add_exact (a b : Z) :
  CInt.in_range (a + b) -> Checked.add a b = Some (a + b).
Proof. apply checked_ret_in_range. Qed.

Lemma checked_sub_exact (a b : Z) :
  CInt.in_range (a - b) -> Checked.sub a b = Some (a - b).
Proof. apply checked_ret_in_range. Qed.

Lemma checked_mul_exact (a b : Z) :
  CInt.in_range (a * b) -> Checked.mul a b = Some (a * b).
Proof. apply checked_ret_in_range. Qed.

Lemma checked_div_exact (a b : Z) :
  b <> 0 -> CInt.in_range (a ÷ b) -> Checked.div a b = Some (a ÷ b).
Proof.
  intros Hb H. unfold Checked.div.
  destruct (Z.eqb_spec b 0); [contradiction |]. apply checked_ret_in_range, H.
Qed.

Lemma checked_rem_exact (a b : Z) :
  b <> 0 -> CInt.in_range (a ÷ b) -> CInt.in_range (Z.rem a b) ->
  Checked.rem a b = Some (Z.rem a b).
Proof.
  intros Hb Hq Hr. unfold Checked.rem.
  destruct (Z.eqb_spec b 0); [contradiction |].
  rewrite (checked_ret_in_range _ Hq). simpl. apply checked_ret_in_range, Hr.
Qed.

Lemma quot_between (a b lo hi : Z) :
  0 < b -> lo <= a <= hi -> lo ÷ b <= a ÷ b <= hi ÷ b.
Proof.
  intros Hb [Hlo Hhi]. split; apply Z.quot_le_mono; assumption.
Qed.

Lemma rem_between (a b : Z) : 0 < b -> - b < Z.rem a b < b.
Proof.
  intros Hb. pose proof (Z.rem_bound_abs a b ltac:(lia)). lia.
Qed.

Ltac int_range :=
  unfold CInt.in_range, CInt.int_min, CInt.int_max in *; lia.

(** After the shift, nothing overflows when the day is within 10^9 and the
    month within 10^8 of zero, whatever [int] the year is. *)
Lemma zeller_checked_exact (day month year : Z) :
  -1000000000 <= day <= 1000000000 ->
  -100000000 <= month <= 100000000 ->
  CInt.in_range year ->
  zeller_checked day month year
  = Some (Z.rem (day + (13 * (month + 1)) ÷ 5 + Z.rem year 100
                 + Z.rem year 100 ÷ 4 + year ÷ 100 ÷ 4 + 5 * (year ÷ 100)) 7).
Proof.
  intros Hd Hm Hy. unfold zeller_checked.
  pose proof (rem_between year 100 eq_refl) as HD.
  assert (HC : -21474836 <= year ÷ 100 <= 21474836).
  { apply (quot_between year 100 (-2147483648) 2147483647); int_range. }
  assert (Hq : -259999997 <= (13 * (month + 1)) ÷ 5 <= 260000002).
  { apply (quot_between (13 * (month + 1)) 5 (-1299999987) 1300000013); lia. }
  assert (Hd4 : -24 <= Z.rem year 100 ÷ 4 <= 24).
  { apply (quot_between (Z.rem year 100) 4 (-99) 99); lia. }
  assert (Hc4 : -5368709 <= year ÷ 100 ÷ 4 <= 5368709).
  { apply (quot_between (year ÷ 100) 4 (-21474836) 21474836); lia. }
  set (s := day + (13 * (month + 1)) ÷ 5 + Z.rem year 100
            + Z.rem year 100 ÷ 4 + year ÷ 100 ÷ 4 + 5 * (year ÷ 100)).
  pose proof (rem_between s 7 eq_refl) as Hh.
  assert (Hs7 : -306783378 <= s ÷ 7 <= 306783378).
  { apply (quot_between s 7 (-2147483648) 2147483647); subst s; lia. }
  rewrite checked_rem_exact by int_range. unfold Checked.bind at 1.
  rewrite checked_div_exact by int_range. unfold Checked.bind at 1.
  rewrite checked_add_exact by int_range. unfold Checked.bind at 1.
  rewrite checked_mul_exact by int_range. unfold Checked.bind at 1.
  rewrite checked_div_exact by int_range. unfold Checked.bind at 1.
  rewrite checked_add_exact by int_range. unfold Checked.bind at 1.
  rewrite checked_add_exact by int_range. unfold Checked.bind at 1.
  rewrite checked_div_exact by int_range. unfold Checked.bind at 1.
  rewrite checked_add_exact by int_range. unfold Checked.bind at 1.
  rewrite checked_div_exact by int_range. unfold Checked.bind at 1.
  rewrite checked_add_exact by int_range. unfold Checked.bind at 1.
  rewrite checked_mul_exact by int_range. unfold Checked.bind at 1.
  rewrite checked_add_exact by int_range. unfold Checked.bind at 1.
  apply checked_rem_exact; fold s; int_range.
Qed.

Lemma calculate_day_of_week_checked_exact (day month year : Z) :
  -1000000000 <= day <= 1000000000 ->
  -100000000 <= month <= 100000000 ->
  CInt.int_min < year <= CInt.int_max ->
  calculate_day_of_week_checked day month year
  = Some (Spec.computeWeekday day month year).
Proof.
  intros Hd Hm Hy.
  unfold calculate_day_of_week_checked, Spec.computeWeekday.
  destruct (Z.eqb_spec month 1) as [-> | Hm1].
  - rewrite checked_sub_exact by int_range. unfold Checked.bind.
    change (13 =? 2) with false. cbv beta iota.
    apply zeller_checked_exact; int_range.
  - destruct (Z.eqb_spec month 2) as [-> | Hm2].
    + rewrite checked_sub_exact by int_range. unfold Checked.bind.
      change (2 =? 2) with true. cbv beta iota.
      apply zeller_checked_exact; int_range.
    + destruct (Z.eqb_spec month 2) as [| _]; [contradiction |].
      cbv beta iota. apply zeller_checked_exact; int_range.
Qed.

(** On non-negative operands the formula yields a weekday index. *)
Lemma computeWeekday_index (day month year : Z) :
  0 <= day -> 1 <= month -> 1 <= year ->
  0 <= Spec.computeWeekday day month year <= 6.
Proof.
  intros Hd Hm Hy. unfold Spec.computeWeekday.
  assert (Hsum : forall m y, 0 <= m -> 0 <= y ->
            0 <= Z.rem (day + (13 * (m + 1)) ÷ 5 + Z.rem y 100
                        + Z.rem y 100 ÷ 4 + y ÷ 100 ÷ 4 + 5 * (y ÷ 100)) 7 <= 6).
  { intros m y Hm0 Hy0.
    pose proof (Z.quot_pos (13 * (m + 1)) 5 ltac:(lia) eq_refl).
    pose proof (Z.rem_nonneg y 100 ltac:(lia) Hy0) as HD.
    pose proof (Z.quot_pos (Z.rem y 100) 4 HD eq_refl).
    pose proof (Z.quot_pos y 100 Hy0 eq_refl) as HC.
    pose proof (Z.quot_pos (y ÷ 100) 4 HC eq_refl).
    match goal with
    | |- 0 <= Z.rem ?s 7 <= 6 =>
        pose proof (Z.rem_bound_pos s 7 ltac:(lia) eq_refl)
    end. lia. }
  destruct (Z.eqb_spec month 1) as [-> | Hm1].
  - change (13 =? 2) with false. cbv beta iota. apply Hsum; lia.
  - destruct (Z.eqb_spec month 2) as [-> | Hm2].
    + cbv beta iota. apply Hsum; lia.
    + cbv beta iota. apply Hsum; lia.
Qed.

(** C1 (amended).  Whenever no [int] operation of [calculate_day_of_week]
    overflows, its result is the one of the stated algorithm: month 1 becomes
    13 and month 2 becomes 14, each with the year decremented, and with
    C = year div 100 and D = year mod 100 the result is
    (day + 13*(month+1)/5 + D + D/4 + C/4 + 5*C) mod 7, division truncating
    and the remainder taking the sign of the dividend.  No operation
    overflows when the day is within 10^9 and the month within 10^8 of zero
    and the year is an [int] other than the least one. *)
Theorem calculate_day_of_week_formula (day month year : Z) :
  (no_overflow day month year ->
   calculate_day_of_week day month year = Spec.computeWeekday day month year)
  /\ (-1000000000 <= day <= 1000000000 ->
      -100000000 <= month <= 100000000 ->
      CInt.int_min < year <= CInt.int_max ->
      no_overflow day month year).
Proof.
  unfold no_overflow. split.
  - intros H.
    destruct (calculate_day_of_week_checked day month year) as [h |] eqn:E;
      [| contradiction].
    destruct (calculate_day_of_week_checked_sound _ _ _ _ E) as [-> ->].
    reflexivity.
  - intros Hd Hm Hy.
    rewrite calculate_day_of_week_checked_exact by assumption. discriminate.
Qed.

Lemma calculate_day_of_week_formula_witness :
  no_overflow 29 2 2024
  /\ calculate_day_of_week 29 2 2024 = Spec.computeWeekday 29 2 2024.
Proof.
  assert (H : no_overflow 29 2 2024).
  { apply (calculate_day_of_week_formula 29 2 2024);
      unfold CInt.int_min, CInt.int_max; lia. }
  split; [exact H |].
  apply (calculate_day_of_week_formula 29 2 2024). exact H.
Defined.

(** C1 as stated fails for a day that is an [int] but makes the sum leave the
    [int] range: for day 2147483647 of March 2000 the 32-bit sum wraps and
    the function returns 0, while the stated algorithm yields 4. *)
Lemma calculate_day_of_week_overflow :
  CInt.in_range 2147483647
  /\ calculate_day_of_week_checked 2147483647 3 2000 = None
  /\ calculate_day_of_week 2147483647 3 2000 = 0
  /\ Spec.computeWeekday 2147483647 3 2000 = 4
  /\ calculate_day_of_week 2147483647 3 2000
     <> Spec.computeWeekday 2147483647 3 2000.
Proof.
  split; [unfold CInt.in_range, CInt.int_min, CInt.int_max; lia |].
  split; [reflexivity |]. split; [reflexivity |]. split; [reflexivity |].
  vm_compute. discriminate.
Qed.

(** Without overflow but with a negative sum, the result is negative, as the
    remainder of C is: it is then no weekday index. *)
Example calculate_day_of_week_negative_sum :
  calculate_day_of_week_checked (-151) 3 2000 = Some (-1)
  /\ calculate_day_of_week (-151) 3 2000 = -1
  /\ Spec.computeWeekday (-151) 3 2000 = -1.
Proof. repeat split; reflexivity. Qed.

Lemma month_length_bound (m y : Z) :
  1 <= m <= 12 -> 28 <= Spec.month_length m y <= 31.
Proof.
  intros Hm. month_cases m; try lia; simpl; try lia.
  destruct (Spec.isLeapYearb y); lia.
Qed.

Lemma valid_date_is_valid (d m y : Z) :
  1700 <= y <= 2500 ->
  Spec.valid_gregorian_date d m y ->
  is_valid_date d m y = true.
Proof.
  intros Hy [Hm Hd].
  unfold is_valid_date. rewrite is_valid_date_run_day by assumption.
  cbv zeta. rewrite get_days_in_month_length by assumption.
  pose proof (day_test d (Spec.month_length m y)) as Ht.
  destruct ((d <? 1) || (d >? Spec.month_length m y)); [| reflexivity].
  destruct Ht as [Ht _]. specialize (Ht eq_refl). lia.
Qed.

(** C2.  Every valid Gregorian date with a year in [1700, 2500] (month in
    [1, 12], day between 1 and the number of days of the month in that year)
    is accepted by [is_valid_date], and [calculate_day_of_week] returns a
    value in [0, 6] for it. *)
Theorem valid_date_accepted (d m y : Z) :
  1700 <= y <= 2500 ->
  Spec.valid_gregorian_date d m y ->
  is_valid_date d m y = true /\ 0 <= calculate_day_of_week d m y <= 6.
Proof.
  intros Hy Hv. split; [apply valid_date_is_valid; assumption |].
  destruct Hv as [Hm Hd].
  pose proof (month_length_bound m y Hm) as Hlen.
  assert (E : calculate_day_of_week_checked d m y
              = Some (Spec.computeWeekday d m y)).
  { apply calculate_day_of_week_checked_exact;
      unfold CInt.int_min, CInt.int_max; lia. }
  apply calculate_day_of_week_checked_sound in E. destruct E as [-> _].
  apply computeWeekday_index; lia.
Qed.

Lemma valid_date_accepted_witness :
  1700 <= 2024 <= 2500
  /\ Spec.valid_gregorian_date 29 2 2024
  /\ is_valid_date 29 2 2024 = true
  /\ 0 <= calculate_day_of_week 29 2 2024 <= 6.
Proof.
  assert (Hy : 1700 <= 2024 <= 2500) by lia.
  assert (Hv : Spec.valid_gregorian_date 29 2 2024).
  { unfold Spec.valid_gregorian_date. simpl. lia. }
  split; [exact Hy |]. split; [exact Hv |].
  exact (valid_date_accepted 29 2 2024 Hy Hv).
Defined.

(** ** [print_day_name] *)

Lemma print_day_name_outside (day_index : Z) :
  day_index < 0 \/ day_index > 6 ->
  print_day_name day_index = Some msg_bad_index.
Proof.
  intros H. unfold print_day_name. rewrite Z.geb_leb.
  destruct (Z.leb_spec 0 day_index); [| reflexivity].
  destruct (Z.leb_spec day_index 6); [lia | reflexivity].
Qed.

Lemma print_day_name_inside (day_index : Z) :
  0 <= day_index <= 6 ->
  exists w : Spec.weekday,
    Spec.weekday_of_index day_index = Some w
    /\ array_get day_names day_index = Some (Spec.weekday_name w)
    /\ print_day_name day_index
       = Some ("The day of the week was: " ++ Spec.weekday_name w ++ nl)%string.
Proof.
  intros H.
  assert (Hc : day_index = 0 \/ day_index = 1 \/ day_index = 2
               \/ day_index = 3 \/ day_index = 4 \/ day_index = 5
               \/ day_index = 6) by lia.
  repeat (destruct Hc as [Hc | Hc]); subst day_index;
    eexists; (split; [reflexivity | split; reflexivity]).
Qed.

Lemma print_day_name_defined (day_index : Z) :
  print_day_name day_index <> None.
Proof.
  destruct (Z.lt_ge_cases day_index 0) as [Hlo | Hlo].
  - rewrite print_day_name_outside by lia. discriminate.
  - destruct (Z.le_gt_cases day_index 6) as [Hhi | Hhi].
    + destruct (print_day_name_inside day_index (conj Hlo Hhi)) as [w [_ [_ E]]].
      rewrite E. discriminate.
    + rewrite print_day_name_outside by lia. discriminate.
Qed.

(** C7.  [print_day_name] writes Saturday for index 0, then Sunday, Monday,
    Tuesday, Wednesday, Thursday, and Friday for index 6, each read from
    [day_names] at that index; for every index outside 0..6 it writes the
    error diagnostic instead; and whatever the index, [day_names] is never
    read outside its bounds. *)
Theorem print_day_name_table (day_index : Z) :
  print_day_name day_index <> None
  /\ (day_index < 0 \/ day_index > 6 ->
      print_day_name day_index = Some msg_bad_index)
  /\ (0 <= day_index <= 6 ->
      exists w : Spec.weekday,
        Spec.weekday_of_index day_index = Some w
        /\ array_get day_names day_index = Some (Spec.weekday_name w)
        /\ print_day_name day_index
           = Some ("The day of the week was: " ++ Spec.weekday_name w ++ nl)%string)
  /\ map print_day_name [0; 1; 2; 3; 4; 5; 6]
     = [Some ("The day of the week was: Saturday" ++ nl)%string;
        Some ("The day of the week was: Sunday" ++ nl)%string;
        Some ("The day of the week was: Monday" ++ nl)%string;
        Some ("The day of the week was: Tuesday" ++ nl)%string;
        Some ("The day of the week was: Wednesday" ++ nl)%string;
        Some ("The day of the week was: Thursday" ++ nl)%string;
        Some ("The day of the week was: Friday" ++ nl)%string].
Proof.
  split; [apply print_day_name_defined |].
  split; [apply print_day_name_outside |].
  split; [apply print_day_name_inside | reflexivity].
Qed.

Lemma print_day_name_table_witness :
  print_day_name 7 = Some msg_bad_index
  /\ print_day_name (-1) = Some msg_bad_index
  /\ exists w : Spec.weekday,
       Spec.weekday_of_index 6 = Some w
       /\ array_get day_names 6 = Some (Spec.weekday_name w)
       /\ print_day_name 6
          = Some ("The day of the week was: " ++ Spec.weekday_name w ++ nl)%string.
Proof.
  refine (conj _ (conj _ _)).
  - destruct (print_day_name_table 7) as [_ [H _]]. apply H. lia.
  - destruct (print_day_name_table (-1)) as [_ [H _]]. apply H. lia.
  - destruct (print_day_name_table 6) as [_ [_ [H _]]]. apply H. lia.
Defined.

(** ** The date 15/10/2025 *)

(** C6.  The date 15/10/2025 is accepted by [is_valid_date];
    [calculate_day_of_week] returns 4 for it, the value of the stated
    formula; [print_day_name] writes Wednesday for index 4, the fifth name
    of the sequence that starts with Saturday at 0; and counting days from
    1 January 2000, a Saturday, also gives Wednesday.  The whole program
    writes that name and exits with status 0. *)
Theorem date_15_10_2025 :
  is_valid_date 15 10 2025 = true
  /\ calculate_day_of_week 15 10 2025 = 4
  /\ Spec.computeWeekday 15 10 2025 = 4
  /\ Spec.weekday_of_index 4 = Some Spec.Wednesday
  /\ print_day_name (calculate_day_of_week 15 10 2025)
     = Some ("The day of the week was: Wednesday" ++ nl)%string
  /\ Spec.reference_weekday 15 10 2025 = 4
  /\ main (Some (15, 10, 2025))
     = Some (msg_banner ++ msg_prompt ++ nl ++ "--- Result ---" ++ nl
             ++ "Date entered: 15/10/2025" ++ nl
             ++ "The day of the week was: Wednesday" ++ nl
             ++ "----------------" ++ nl, 0)%string.
Proof. repeat split; vm_compute; reflexivity. Qed.

(** ** The weekday that is computed is the weekday of the date *)

Lemma In_Zrange (lo z : Z) (n : nat) :
  lo <= z < lo + Z.of_nat n -> In z (Zrange lo n).
Proof.
  intros H. unfold Zrange. apply in_map_iff.
  exists (Z.to_nat (z - lo)). split; [lia |].
  apply in_seq. lia.
Qed.

(** From one 1 January to the next, for the years 1700 to 2499, the stated
    formula advances by the length of the year. *)
Lemma year_steps_agree :
  forallb
    (fun y =>
       Spec.computeWeekday 1 1 (y + 1)
       =? (Spec.computeWeekday 1 1 y + Spec.year_length y) mod 7)
    (Zrange 1700 800)
  = true.
Proof. vm_compute. reflexivity. Qed.

(** From the first day of one month to the first day of the next, for the
    years 1700 to 2500, it advances by the length of the month. *)
Lemma month_steps_agree :
  forallb
    (fun y =>
       forallb
         (fun m =>
            Spec.computeWeekday 1 (m + 1) y
            =? (Spec.computeWeekday 1 m y + Spec.month_length m y) mod 7)
         (Zrange 1 11))
    (Zrange 1700 801)
  = true.
Proof. vm_compute. reflexivity. Qed.

Lemma year_step (y : Z) :
  1700 <= y < 2500 ->
  Spec.computeWeekday 1 1 (y + 1)
  = (Spec.computeWeekday 1 1 y + Spec.year_length y) mod 7.
Proof.
  intros Hy. pose proof year_steps_agree as H.
  rewrite forallb_forall in H.
  apply Z.eqb_eq, (H y). apply In_Zrange. lia.
Qed.

Lemma month_step (m y : Z) :
  1700 <= y <= 2500 -> 1 <= m < 12 ->
  Spec.computeWeekday 1 (m + 1) y
  = (Spec.computeWeekday 1 m y + Spec.month_length m y) mod 7.
Proof.
  intros Hy Hm. pose proof month_steps_agree as H.
  rewrite forallb_forall in H.
  specialize (H y (In_Zrange 1700 y 801 ltac:(lia))).
  rewrite forallb_forall in H.
  apply Z.eqb_eq, (H m). apply In_Zrange. lia.
Qed.

Lemma days_in_years_last (n : nat) (from : Z) :
  Spec.days_in_years (S n) from
  = Spec.days_in_years n from + Spec.year_length (from + Z.of_nat n).
Proof.
  revert from. induction n as [| n IH]; intros from.
  - change (Spec.days_in_years 1 from) with (Spec.year_length from + 0).
    change (Spec.days_in_years 0 from) with 0.
    change (Z.of_nat 0) with 0. rewrite !Z.add_0_r. lia.
  - change (Spec.days_in_years (S (S n)) from)
      with (Spec.year_length from + Spec.days_in_years (S n) (from + 1)).
    rewrite IH.
    change (Spec.days_in_years (S n) from)
      with (Spec.year_length from + Spec.days_in_years n (from + 1)).
    replace (from + 1 + Z.of_nat n) with (from + Z.of_nat (S n)) by lia. lia.
Qed.

Lemma days_in_months_last (n : nat) (from year : Z) :
  Spec.days_in_months (S n) from year
  = Spec.days_in_months n from year
    + Spec.month_length (from + Z.of_nat n) year.
Proof.
  revert from. induction n as [| n IH]; intros from.
  - change (Spec.days_in_months 1 from year)
      with (Spec.month_length from year + 0).
    change (Spec.days_in_months 0 from year) with 0.
    change (Z.of_nat 0) with 0. rewrite !Z.add_0_r. lia.
  - change (Spec.days_in_months (S (S n)) from year)
      with (Spec.month_length from year
            + Spec.days_in_months (S n) (from + 1) year).
    rewrite IH.
    change (Spec.days_in_months (S n) from year)
      with (Spec.month_length from year
            + Spec.days_in_months n (from + 1) year).
    replace (from + 1 + Z.of_nat n) with (from + Z.of_nat (S n)) by lia. lia.
Qed.

(** 1 January of the years 1700 to 2500. *)
Lemma new_year_weekday (n : nat) :
  (n <= 800)%nat ->
  Spec.computeWeekday 1 1 (1700 + Z.of_nat n)
  = (6 + Spec.days_in_years n 1700) mod 7.
Proof.
  induction n as [| n IH]; intros Hn.
  - reflexivity.
  - replace (1700 + Z.of_nat (S n)) with (1700 + Z.of_nat n + 1) by lia.
    rewrite year_step by lia. rewrite IH by lia.
    rewrite days_in_years_last, Zplus_mod_idemp_l. f_equal. lia.
Qed.

(** The first day of the twelve months of such a year. *)
Lemma first_of_month_weekday (k : nat) (y : Z) :
  1700 <= y <= 2500 -> (k <= 11)%nat ->
  Spec.computeWeekday 1 (1 + Z.of_nat k) y
  = (Spec.computeWeekday 1 1 y + Spec.days_in_months k 1 y) mod 7.
Proof.
  intros Hy. induction k as [| k IH]; intros Hk.
  - change (Spec.days_in_months 0 1 y) with 0.
    change (1 + Z.of_nat 0) with 1. rewrite Z.add_0_r.
    pose proof (computeWeekday_index 1 1 y ltac:(lia) ltac:(lia) ltac:(lia)).
    rewrite Z.mod_small by lia. reflexivity.
  - replace (1 + Z.of_nat (S k)) with (1 + Z.of_nat k + 1) by lia.
    rewrite month_step by lia. rewrite IH by lia.
    rewrite days_in_months_last, Zplus_mod_idemp_l. f_equal. lia.
Qed.

Lemma first_day_agrees (m y : Z) :
  1700 <= y <= 2500 -> 1 <= m <= 12 ->
  Spec.computeWeekday 1 m y = Spec.reference_weekday 1 m y.
Proof.
  intros Hy Hm.
  replace m with (1 + Z.of_nat (Z.to_nat (m - 1))) at 1 by lia.
  rewrite first_of_month_weekday by lia.
  replace y with (1700 + Z.of_nat (Z.to_nat (y - 1700))) at 1 by lia.
  rewrite new_year_weekday by lia.
  rewrite Zplus_mod_idemp_l.
  unfold Spec.reference_weekday.
  change (Spec.day_number 1 1 2000) with 109572.
  unfold Spec.day_number.
  set (N := Spec.days_in_years (Z.to_nat (y - 1700)) 1700
            + Spec.days_in_months (Z.to_nat (m - 1)) 1 y).
  rewrite <- (Z.mod_add (N + (1 - 1) - 109572) 15654 7) by lia.
  f_equal. lia.
Qed.

(** Both calculations advance by one weekday per day of the month. *)
Lemma computeWeekday_next_days (d m y : Z) :
  1 <= d -> 1 <= m -> 1 <= y ->
  Spec.computeWeekday d m y = ((d - 1) + Spec.computeWeekday 1 m y) mod 7.
Proof.
  intros Hd Hm Hy. unfold Spec.computeWeekday.
  assert (Hsum : forall m' y', 0 <= m' -> 0 <= y' ->
            Z.rem (d + (13 * (m' + 1)) ÷ 5 + Z.rem y' 100
                   + Z.rem y' 100 ÷ 4 + y' ÷ 100 ÷ 4 + 5 * (y' ÷ 100)) 7
            = ((d - 1)
               + Z.rem (1 + (13 * (m' + 1)) ÷ 5 + Z.rem y' 100
                        + Z.rem y' 100 ÷ 4 + y' ÷ 100 ÷ 4 + 5 * (y' ÷ 100)) 7)
              mod 7).
  { intros m' y' Hm0 Hy0.
    pose proof (Z.quot_pos (13 * (m' + 1)) 5 ltac:(lia) eq_refl).
    pose proof (Z.rem_nonneg y' 100 ltac:(lia) Hy0) as HD.
    pose proof (Z.quot_pos (Z.rem y' 100) 4 HD eq_refl).
    pose proof (Z.quot_pos y' 100 Hy0 eq_refl) as HC.
    pose proof (Z.quot_pos (y' ÷ 100) 4 HC eq_refl).
    set (q := (13 * (m' + 1)) ÷ 5) in *.
    set (D := Z.rem y' 100) in *.
    set (d4 := D ÷ 4) in *.
    set (C := y' ÷ 100) in *.
    set (c4 := C ÷ 4) in *.
    clearbody q d4 c4 D C.
    rewrite !Z.rem_mod_nonneg by lia.
    rewrite Zplus_mod_idemp_r. f_equal. lia. }
  destruct (Z.eqb_spec m 1) as [-> | Hm1].
  - change (13 =? 2) with false. cbv beta iota. apply Hsum; lia.
  - destruct (Z.eqb_spec m 2) as [-> | Hm2];
      cbv beta iota; apply Hsum; lia.
Qed.

Lemma reference_weekday_next_days (d m y : Z) :
  Spec.reference_weekday d m y
  = ((d - 1) + Spec.reference_weekday 1 m y) mod 7.
Proof.
  unfold Spec.reference_weekday. rewrite Zplus_mod_idemp_r.
  f_equal. unfold Spec.day_number. lia.
Qed.

(** Inside the box of the amended C1 the function is the formula. *)
Lemma calculate_day_of_week_in_box (day month year : Z) :
  -1000000000 <= day <= 1000000000 ->
  -100000000 <= month <= 100000000 ->
  CInt.int_min < year <= CInt.int_max ->
  calculate_day_of_week day month year = Spec.computeWeekday day month year.
Proof.
  intros Hd Hm Hy.
  pose proof (calculate_day_of_week_checked_exact day month year Hd Hm Hy) as E.
  apply calculate_day_of_week_checked_sound in E. destruct E as [-> _].
  reflexivity.
Qed.

Lemma valid_date_exact (d m y : Z) :
  1700 <= y <= 2500 ->
  Spec.valid_gregorian_date d m y ->
  calculate_day_of_week d m y = Spec.computeWeekday d m y.
Proof.
  intros Hy [Hm Hd].
  pose proof (month_length_bound m y Hm) as Hlen.
  apply calculate_day_of_week_in_box; unfold CInt.int_min, CInt.int_max; lia.
Qed.

Lemma computeWeekday_is_reference (d m y : Z) :
  1700 <= y <= 2500 ->
  Spec.valid_gregorian_date d m y ->
  Spec.computeWeekday d m y = Spec.reference_weekday d m y.
Proof.
  intros Hy [Hm Hd].
  rewrite computeWeekday_next_days by lia.
  rewrite first_day_agrees by assumption.
  symmetry. apply reference_weekday_next_days.
Qed.

Lemma accepted_date_is_gregorian (d m y : Z) :
  is_valid_date d m y = true ->
  1700 <= y <= 2500 /\ Spec.valid_gregorian_date d m y.
Proof.
  unfold is_valid_date. intros Ev.
  destruct (date_situation m y) as [Hy | [[Hy Hm] | [Hy Hm]]].
  - rewrite is_valid_date_run_year in Ev by assumption. discriminate.
  - rewrite is_valid_date_run_month in Ev by assumption. discriminate.
  - rewrite is_valid_date_run_day in Ev by assumption. cbv zeta in Ev.
    pose proof (day_test d (get_days_in_month m y)) as Ht.
    destruct ((d <? 1) || (d >? get_days_in_month m y)); [discriminate |].
    assert (Hd : ~ (d < 1 \/ d > get_days_in_month m y))
      by (intros Hd; apply Ht in Hd; discriminate).
    rewrite get_days_in_month_length in Hd by assumption.
    unfold Spec.valid_gregorian_date. lia.
Qed.

(** X1.  [is_valid_date] accepts a date exactly when its year is in
    [1700, 2500] and it is a date of the Gregorian calendar: the month is in
    [1, 12] and the day is between 1 and the length of that month in that
    year, by the calendar table and the leap-year rule of divisibility. *)
Theorem is_valid_date_gregorian (d m y : Z) :
  is_valid_date d m y = true
  <-> 1700 <= y <= 2500 /\ Spec.valid_gregorian_date d m y.
Proof.
  split.
  - apply accepted_date_is_gregorian.
  - intros [Hy Hv]. apply valid_date_is_valid; assumption.
Qed.

(** X2.  For every valid date of the years 1700 to 2500, the index that
    [calculate_day_of_week] returns is the weekday obtained by counting the
    days from 1 January 2000, a Saturday (0 = Saturday, ..., 6 = Friday). *)
Theorem calculate_day_of_week_is_weekday (d m y : Z) :
  1700 <= y <= 2500 ->
  Spec.valid_gregorian_date d m y ->
  calculate_day_of_week d m y = Spec.reference_weekday d m y.
Proof.
  intros Hy Hv.
  rewrite valid_date_exact by assumption.
  apply computeWeekday_is_reference; assumption.
Qed.

Lemma calculate_day_of_week_is_weekday_witness :
  1700 <= 2026 <= 2500
  /\ Spec.valid_gregorian_date 30 10 2026
  /\ calculate_day_of_week 30 10 2026 = Spec.reference_weekday 30 10 2026.
Proof.
  assert (Hy : 1700 <= 2026 <= 2500) by lia.
  assert (Hv : Spec.valid_gregorian_date 30 10 2026).
  { unfold Spec.valid_gregorian_date. simpl. lia. }
  split; [exact Hy |]. split; [exact Hv |].
  exact (calculate_day_of_week_is_weekday 30 10 2026 Hy Hv).
Defined.

(** X3.  Whatever three integers it is given, overflow or not,
    [calculate_day_of_week] returns a value between -6 and 6: the result is
    never an index above the array of [print_day_name], and the only indices
    that array does not have are negative ones. *)
Theorem calculate_day_of_week_bounds (day month year : Z) :
  -6 <= calculate_day_of_week day month year <= 6.
Proof.
  unfold calculate_day_of_week.
  destruct (month =? 1); [| destruct (month =? 2)]; cbv beta iota zeta;
    rewrite rem_exact by (unfold CInt.int_max; lia);
    match goal with
    | |- -6 <= Z.rem ?s 7 <= 6 => pose proof (rem_between s 7 eq_refl)
    end; lia.
Qed.

(** ** The calendar repeats *)

Lemma rem_zero_shift (y k c : Z) :
  k <> 0 -> (k | c) -> (Z.rem (y + c) k =? 0) = (Z.rem y k =? 0).
Proof.
  intros Hk Hc. apply Bool.eq_iff_eq_true.
  rewrite !Z.eqb_eq, !Z.rem_divide by assumption. split; intros H.
  - apply (Z.divide_add_cancel_r k c y Hc). rewrite Z.add_comm. exact H.
  - apply Z.divide_add_r; assumption.
Qed.

Lemma is_leap_400_years (year : Z) : is_leap (year + 400) = is_leap year.
Proof.
  rewrite !is_leap_cases.
  rewrite (rem_zero_shift year 400 400) by (try lia; exists 1; reflexivity).
  rewrite (rem_zero_shift year 100 400) by (try lia; exists 4; reflexivity).
  rewrite (rem_zero_shift year 4 400) by (try lia; exists 100; reflexivity).
  reflexivity.
Qed.

(** X4.  Leap years and month lengths repeat every 400 years: for every
    year and every month, [is_leap] and [get_days_in_month] give the same
    result 400 years later. *)
Theorem month_lengths_repeat_400_years (month year : Z) :
  is_leap (year + 400) = is_leap year
  /\ get_days_in_month month (year + 400) = get_days_in_month month year.
Proof.
  split; [apply is_leap_400_years |].
  unfold get_days_in_month, get_days_in_month_at.
  rewrite is_leap_400_years. reflexivity.
Qed.

(** X5.  The twelve month lengths of [get_days_in_month] add up to 365 in a
    year for which [is_leap] returns 0 and to 366 in a year for which it
    returns 1. *)
Theorem month_lengths_sum (year : Z) :
  fold_right Z.add 0 (map (fun m => get_days_in_month m year) (Zrange 1 12))
  = 365 + is_leap year.
Proof.
  change (Zrange 1 12) with [1; 2; 3; 4; 5; 6; 7; 8; 9; 10; 11; 12].
  cbn [map fold_right].
  rewrite get_days_in_month_february.
  change (get_days_in_month 1 year) with 31.
  change (get_days_in_month 3 year) with 31.
  change (get_days_in_month 4 year) with 30.
  change (get_days_in_month 5 year) with 31.
  change (get_days_in_month 6 year) with 30.
  change (get_days_in_month 7 year) with 31.
  change (get_days_in_month 8 year) with 31.
  change (get_days_in_month 9 year) with 30.
  change (get_days_in_month 10 year) with 31.
  change (get_days_in_month 11 year) with 30.
  change (get_days_in_month 12 year) with 31.
  destruct (is_leap_bit year) as [E | E]; rewrite E; reflexivity.
Qed.

Lemma computeWeekday_400_years (d m y : Z) :
  0 <= d -> 1 <= m -> 1 <= y ->
  Spec.computeWeekday d m (y + 400) = Spec.computeWeekday d m y.
Proof.
  intros Hd Hm Hy. unfold Spec.computeWeekday.
  assert (Hsum : forall m' y', 0 <= m' -> 0 <= y' ->
            Z.rem (d + (13 * (m' + 1)) ÷ 5 + Z.rem (y' + 400) 100
                   + Z.rem (y' + 400) 100 ÷ 4 + (y' + 400) ÷ 100 ÷ 4
                   + 5 * ((y' + 400) ÷ 100)) 7
            = Z.rem (d + (13 * (m' + 1)) ÷ 5 + Z.rem y' 100
                     + Z.rem y' 100 ÷ 4 + y' ÷ 100 ÷ 4 + 5 * (y' ÷ 100)) 7).
  { intros m' y' Hm0 Hy0.
    pose proof (Z.quot_pos (13 * (m' + 1)) 5 ltac:(lia) eq_refl).
    pose proof (Z.rem_nonneg y' 100 ltac:(lia) Hy0) as HD.
    pose proof (Z.quot_pos (Z.rem y' 100) 4 HD eq_refl).
    pose proof (Z.quot_pos y' 100 Hy0 eq_refl) as HC.
    pose proof (Z.quot_pos (y' ÷ 100) 4 HC eq_refl).
    replace (y' + 400) with (y' + 4 * 100) by lia.
    rewrite Z.rem_add, Z.quot_add by nia.
    replace (y' ÷ 100 + 4) with (y' ÷ 100 + 1 * 4) at 1 by lia.
    rewrite Z.quot_add by nia.
    set (q := (13 * (m' + 1)) ÷ 5) in *.
    set (D := Z.rem y' 100) in *.
    set (d4 := D ÷ 4) in *.
    set (C := y' ÷ 100) in *.
    set (c4 := C ÷ 4) in *.
    clearbody q d4 c4 D C.
    replace (d + q + D + d4 + (c4 + 1) + 5 * (C + 4))
      with (d + q + D + d4 + c4 + 5 * C + 3 * 7) by lia.
    apply Z.rem_add; nia. }
  destruct (Z.eqb_spec m 1) as [-> | Hm1].
  - change (13 =? 2) with false. cbv beta iota.
    replace (y + 400 - 1) with (y - 1 + 400) by lia. apply Hsum; lia.
  - destruct (Z.eqb_spec m 2) as [-> | Hm2]; cbv beta iota.
    + replace (y + 400 - 1) with (y - 1 + 400) by lia. apply Hsum; lia.
    + apply Hsum; lia.
Qed.

(** X6.  The weekday repeats every 400 years: for a day from 0 to 10^9, a
    month from 1 to 10^8 and a year from 1 on for which [year + 400] is
    still an [int], [calculate_day_of_week] returns the same index for the
    year and for the year 400 later. *)
Theorem calculate_day_of_week_400_years (day month year : Z) :
  0 <= day <= 1000000000 ->
  1 <= month <= 100000000 ->
  1 <= year <= CInt.int_max - 400 ->
  calculate_day_of_week day month (year + 400)
  = calculate_day_of_week day month year.
Proof.
  unfold CInt.int_max. intros Hd Hm Hy.
  rewrite !calculate_day_of_week_in_box
    by (unfold CInt.int_min, CInt.int_max; lia).
  apply computeWeekday_400_years; lia.
Qed.

Lemma calculate_day_of_week_400_years_witness :
  0 <= 29 <= 1000000000
  /\ 1 <= 2 <= 100000000
  /\ 1 <= 2000 <= CInt.int_max - 400
  /\ calculate_day_of_week 29 2 (2000 + 400) = calculate_day_of_week 29 2 2000.
Proof.
  assert (Hd : 0 <= 29 <= 1000000000) by lia.
  assert (Hm : 1 <= 2 <= 100000000) by lia.
  assert (Hy : 1 <= 2000 <= CInt.int_max - 400)
    by (unfold CInt.int_max; lia).
  split; [exact Hd |]. split; [exact Hm |]. split; [exact Hy |].
  exact (calculate_day_of_week_400_years 29 2 2000 Hd Hm Hy).
Defined.

(** X7.  Within a month and a year, one day later is one weekday later and
    seven days later is the same weekday: for a day from 1 on, a month from
    1 on and a year from 1 on, inside the bounds in which nothing overflows,
    [calculate_day_of_week] of [day + 1] is the successor modulo 7 of that of
    [day], and that of [day + 7] is equal to it. *)
Theorem calculate_day_of_week_next_day (day month year : Z) :
  1 <= day <= 999999993 ->
  1 <= month <= 100000000 ->
  1 <= year <= CInt.int_max ->
  calculate_day_of_week (day + 1) month year
  = (calculate_day_of_week day month year + 1) mod 7
  /\ calculate_day_of_week (day + 7) month year
     = calculate_day_of_week day month year.
Proof.
  unfold CInt.int_max. intros Hd Hm Hy.
  rewrite !calculate_day_of_week_in_box
    by (unfold CInt.int_min, CInt.int_max; lia).
  rewrite (computeWeekday_next_days (day + 1)) by lia.
  rewrite (computeWeekday_next_days (day + 7)) by lia.
  rewrite (computeWeekday_next_days day) by lia.
  set (c := Spec.computeWeekday 1 month year). split.
  - rewrite Zplus_mod_idemp_l. f_equal. lia.
  - replace (day + 7 - 1 + c) with (day - 1 + c + 1 * 7) by lia.
    apply Z.mod_add. lia.
Qed.

Lemma calculate_day_of_week_next_day_witness :
  1 <= 15 <= 999999993
  /\ 1 <= 10 <= 100000000
  /\ 1 <= 2025 <= CInt.int_max
  /\ calculate_day_of_week (15 + 1) 10 2025
     = (calculate_day_of_week 15 10 2025 + 1) mod 7
  /\ calculate_day_of_week (15 + 7) 10 2025 = calculate_day_of_week 15 10 2025.
Proof.
  assert (Hd : 1 <= 15 <= 999999993) by lia.
  assert (Hm : 1 <= 10 <= 100000000) by lia.
  assert (Hy : 1 <= 2025 <= CInt.int_max) by (unfold CInt.int_max; lia).
  split; [exact Hd |]. split; [exact Hm |]. split; [exact Hy |].
  exact (calculate_day_of_week_next_day 15 10 2025 Hd Hm Hy).
Defined.

(** X8.  The comment of lines 130-132 holds: with the day from 0 to 10^9,
    the month from 1 to 10^8 and the year from 1 on, the result of
    [calculate_day_of_week], which adds 5*C, is congruent modulo 7 to the
    common form, which subtracts 2*C, and it is the representative of that
    class in 0..6. *)
Theorem calculate_day_of_week_common_form (day month year : Z) :
  0 <= day <= 1000000000 ->
  1 <= month <= 100000000 ->
  1 <= year <= CInt.int_max ->
  calculate_day_of_week day month year
  = common_simplified_sum day month year mod 7.
Proof.
  unfold CInt.int_max. intros Hd Hm Hy.
  rewrite calculate_day_of_week_in_box
    by (unfold CInt.int_min, CInt.int_max; lia).
  unfold Spec.computeWeekday, common_simplified_sum.
  assert (Hsum : forall m' y', 0 <= m' -> 0 <= y' ->
            Z.rem (day + (13 * (m' + 1)) ÷ 5 + Z.rem y' 100
                   + Z.rem y' 100 ÷ 4 + y' ÷ 100 ÷ 4 + 5 * (y' ÷ 100)) 7
            = (day + (13 * (m' + 1)) ÷ 5 + Z.rem y' 100
               + Z.rem y' 100 ÷ 4 + y' ÷ 100 ÷ 4 - 2 * (y' ÷ 100)) mod 7).
  { intros m' y' Hm0 Hy0.
    pose proof (Z.quot_pos (13 * (m' + 1)) 5 ltac:(lia) eq_refl).
    pose proof (Z.rem_nonneg y' 100 ltac:(lia) Hy0) as HD.
    pose proof (Z.quot_pos (Z.rem y' 100) 4 HD eq_refl).
    pose proof (Z.quot_pos y' 100 Hy0 eq_refl) as HC.
    pose proof (Z.quot_pos (y' ÷ 100) 4 HC eq_refl).
    set (q := (13 * (m' + 1)) ÷ 5) in *.
    set (D := Z.rem y' 100) in *.
    set (d4 := D ÷ 4) in *.
    set (C := y' ÷ 100) in *.
    set (c4 := C ÷ 4) in *.
    clearbody q d4 c4 D C.
    rewrite Z.rem_mod_nonneg by lia.
    replace (day + q + D + d4 + c4 + 5 * C)
      with (day + q + D + d4 + c4 - 2 * C + C * 7) by lia.
    apply Z.mod_add. lia. }
  destruct (Z.eqb_spec month 1) as [-> | Hm1].
  - change (13 =? 2) with false. cbv beta iota. apply Hsum; lia.
  - destruct (Z.eqb_spec month 2) as [-> | Hm2];
      cbv beta iota; apply Hsum; lia.
Qed.

Lemma calculate_day_of_week_common_form_witness :
  0 <= 1 <= 1000000000
  /\ 1 <= 3 <= 100000000
  /\ 1 <= 2000 <= CInt.int_max
  /\ calculate_day_of_week 1 3 2000 = common_simplified_sum 1 3 2000 mod 7.
Proof.
  assert (Hd : 0 <= 1 <= 1000000000) by lia.
  assert (Hm : 1 <= 3 <= 100000000) by lia.
  assert (Hy : 1 <= 2000 <= CInt.int_max) by (unfold CInt.int_max; lia).
  split; [exact Hd |]. split; [exact Hm |]. split; [exact Hy |].
  exact (calculate_day_of_week_common_form 1 3 2000 Hd Hm Hy).
Defined.

Lemma days_in_eleven_months (y : Z) :
  Spec.days_in_months 11 1 y = Spec.year_length y - 31.
Proof.
  unfold Spec.year_length. cbn [Spec.days_in_months].
  change (1 + 1) with 2. cbn [Spec.month_length Z.add Pos.add Pos.succ].
  unfold Spec.month_length.
  destruct (Spec.isLeapYearb y); reflexivity.
Qed.

(** X9.  The weekday also advances by one from a month to the next and
    from a year to the next: in the years 1700 to 2500, the first day of a
    month that follows another falls one weekday after the last day of that
    one, whose number is what [get_days_in_month] returns, and up to 2499
    the first of January falls one weekday after the 31st of December
    before it. *)
Theorem calculate_day_of_week_across_boundaries (m y : Z) :
  1700 <= y <= 2500 ->
  (1 <= m <= 11 ->
   calculate_day_of_week 1 (m + 1) y
   = (calculate_day_of_week (get_days_in_month m y) m y + 1) mod 7)
  /\ (y < 2500 ->
      calculate_day_of_week 1 1 (y + 1)
      = (calculate_day_of_week 31 12 y + 1) mod 7).
Proof.
  intros Hy. split.
  - intros Hm.
    rewrite get_days_in_month_length by lia.
    pose proof (month_length_bound m y ltac:(lia)) as Hlen.
    pose proof (month_length_bound (m + 1) y ltac:(lia)) as Hlen'.
    rewrite !valid_date_exact
      by (try assumption; unfold Spec.valid_gregorian_date; lia).
    rewrite month_step by lia.
    rewrite (computeWeekday_next_days (Spec.month_length m y)) by lia.
    rewrite Zplus_mod_idemp_l. f_equal. lia.
  - intros Hlast.
    rewrite !valid_date_exact
      by (try lia; unfold Spec.valid_gregorian_date; simpl; lia).
    rewrite year_step by lia.
    rewrite (computeWeekday_next_days 31 12) by lia.
    change 12 with (1 + Z.of_nat 11).
    rewrite first_of_month_weekday by lia.
    rewrite days_in_eleven_months.
    rewrite Zplus_mod_idemp_r, Zplus_mod_idemp_l. f_equal. lia.
Qed.

Lemma calculate_day_of_week_across_boundaries_witness :
  1700 <= 2024 <= 2500
  /\ calculate_day_of_week 1 (2 + 1) 2024
     = (calculate_day_of_week (get_days_in_month 2 2024) 2 2024 + 1) mod 7
  /\ calculate_day_of_week 1 1 (2024 + 1)
     = (calculate_day_of_week 31 12 2024 + 1) mod 7.
Proof.
  assert (Hy : 1700 <= 2024 <= 2500) by lia.
  split; [exact Hy |].
  destruct (calculate_day_of_week_across_boundaries 2 2024 Hy) as [Hmonth Hyear].
  split; [apply Hmonth | apply Hyear]; lia.
Defined.

(** ** [print_day_name], continued *)

(** X10.  The seven texts of [print_day_name] are pairwise different: two
    indices in 0..6 for which it writes the same text are equal, so the line
    written determines the index. *)
Theorem print_day_name_injective (i j : Z) :
  0 <= i <= 6 -> 0 <= j <= 6 ->
  print_day_name i = print_day_name j -> i = j.
Proof.
  intros Hi Hj.
  assert (Ci : i = 0 \/ i = 1 \/ i = 2 \/ i = 3 \/ i = 4 \/ i = 5 \/ i = 6)
    by lia.
  assert (Cj : j = 0 \/ j = 1 \/ j = 2 \/ j = 3 \/ j = 4 \/ j = 5 \/ j = 6)
    by lia.
  repeat (destruct Ci as [Ci | Ci]); repeat (destruct Cj as [Cj | Cj]);
    subst i j; intros H; try reflexivity;
    vm_compute in H; discriminate H.
Qed.

Lemma print_day_name_injective_witness :
  0 <= 4 <= 6 /\ 0 <= 2 + 2 <= 6
  /\ (print_day_name 4 = print_day_name (2 + 2) -> 4 = 2 + 2).
Proof.
  assert (Hi : 0 <= 4 <= 6) by lia.
  assert (Hj : 0 <= 2 + 2 <= 6) by lia.
  split; [exact Hi |]. split; [exact Hj |].
  exact (print_day_name_injective 4 (2 + 2) Hi Hj).
Defined.

(** ** [main] *)

(** The three ways through [main]. *)
Lemma main_outcome (scanned : option (Z * Z * Z)) :
  match scanned with
  | None =>
      main scanned = Some (msg_banner ++ msg_prompt ++ msg_input_error, 1)%string
  | Some (day, month, year) =>
      if is_valid_date day month year then
        exists text : string,
          print_day_name (calculate_day_of_week day month year) = Some text
          /\ main scanned
             = Some (msg_banner ++ msg_prompt ++ msg_result
                     ++ printf fmt_date [ArgInt day; ArgInt month; ArgInt year]
                     ++ text ++ msg_rule, 0)%string
      else
        main scanned
        = Some (msg_banner ++ msg_prompt
                ++ vd_stdout (is_valid_date_run day month year)
                ++ msg_exiting, 1)%string
  end.
Proof.
  destruct scanned as [[[day month] year] |]; [| reflexivity].
  unfold main, is_valid_date.
  destruct (vd_result (is_valid_date_run day month year)) eqn:Ev; simpl negb; cbv iota.
  - destruct (print_day_name (calculate_day_of_week day month year))
      as [text |] eqn:Et.
    + exists text. split; [reflexivity |].
      assert (Eo : vd_stdout (is_valid_date_run day month year) = EmptyString).
      { destruct (date_situation month year) as [Hy | [[Hy Hm] | [Hy Hm]]].
        - rewrite is_valid_date_run_year in Ev by assumption. discriminate.
        - rewrite is_valid_date_run_month in Ev by assumption. discriminate.
        - rewrite is_valid_date_run_day in Ev |- * by assumption.
          cbv zeta in *.
          destruct ((day <? 1) || (day >? get_days_in_month month year));
            [discriminate | reflexivity]. }
      rewrite Eo. reflexivity.
    + exfalso. exact (print_day_name_defined _ Et).
  - reflexivity.
Qed.

(** X11.  [main] always runs to its end, never reading outside [day_names],
    and its exit status is 0 or 1: it is 0 exactly when [scanf] converted
    three integers and [is_valid_date] accepts them. *)
Theorem main_exit_status (scanned : option (Z * Z * Z)) :
  exists (out : string) (status : Z),
    main scanned = Some (out, status)
    /\ (status = 0 \/ status = 1)
    /\ (status = 0 <->
        exists d m y : Z,
          scanned = Some (d, m, y) /\ is_valid_date d m y = true).
Proof.
  pose proof (main_outcome scanned) as H.
  destruct scanned as [[[d m] y] |].
  - destruct (is_valid_date d m y) eqn:Ev.
    + destruct H as [text [_ H]]. eexists. exists 0.
      split; [exact H |]. split; [left; reflexivity |].
      split; [intros _ | reflexivity].
      exists d, m, y. split; [reflexivity | exact Ev].
    + eexists. exists 1. split; [exact H |]. split; [right; reflexivity |].
      split; [discriminate |].
      intros [d' [m' [y' [E Ev']]]]. injection E as <- <- <-.
      rewrite Ev in Ev'. discriminate.
  - eexists. exists 1. split; [exact H |]. split; [right; reflexivity |].
    split; [discriminate |].
    intros [d [m [y [E _]]]]. discriminate.
Qed.

(** X12.  Whenever [is_valid_date] accepts the three integers read, [main]
    writes the banner, the prompt, the date as read and the name of the
    weekday of that date, the one found by counting days from 1 January
    2000, and exits with status 0; the diagnostic for an invalid index is
    never written. *)
Theorem main_prints_weekday (d m y : Z) :
  is_valid_date d m y = true ->
  exists w : Spec.weekday,
    Spec.weekday_of_index (Spec.reference_weekday d m y) = Some w
    /\ main (Some (d, m, y))
       = Some (msg_banner ++ msg_prompt ++ msg_result
               ++ printf fmt_date [ArgInt d; ArgInt m; ArgInt y]
               ++ ("The day of the week was: " ++ Spec.weekday_name w ++ nl)
               ++ msg_rule, 0)%string.
Proof.
  intros Ev.
  destruct (accepted_date_is_gregorian d m y Ev) as [Hy Hv].
  pose proof (main_outcome (Some (d, m, y))) as Hmain. cbv beta iota in Hmain.
  rewrite Ev in Hmain.
  destruct Hmain as [text [Et Hmain]].
  rewrite valid_date_exact, computeWeekday_is_reference in Et by assumption.
  assert (Hidx : 0 <= Spec.reference_weekday d m y <= 6).
  { unfold Spec.reference_weekday.
    match goal with
    | |- 0 <= ?a mod 7 <= 6 => pose proof (Z.mod_pos_bound a 7 eq_refl)
    end. lia. }
  destruct (print_day_name_inside _ Hidx) as [w [Hw [_ Ep]]].
  exists w. split; [exact Hw |].
  rewrite Ep in Et. injection Et as <-. exact Hmain.
Qed.

Lemma main_prints_weekday_witness :
  is_valid_date 29 2 2024 = true
  /\ exists w : Spec.weekday,
       Spec.weekday_of_index (Spec.reference_weekday 29 2 2024) = Some w
       /\ main (Some (29, 2, 2024))
          = Some (msg_banner ++ msg_prompt ++ msg_result
                  ++ printf fmt_date [ArgInt 29; ArgInt 2; ArgInt 2024]
                  ++ ("The day of the week was: " ++ Spec.weekday_name w ++ nl)
                  ++ msg_rule, 0)%string.
Proof.
  assert (Ev : is_valid_date 29 2 2024 = true) by reflexivity.
  split; [exact Ev |].
  exact (main_prints_weekday 29 2 2024 Ev).
Defined.

(** X13.  Whenever [is_valid_date] refuses the three integers read, [main]
    writes the banner, the prompt, one diagnostic (for the year, for the
    month, or for the day with the length of the month), then the line that
    announces the exit, and exits with status 1; no weekday is written. *)
Theorem main_refuses_invalid_date (d m y : Z) :
  is_valid_date d m y = false ->
  exists diagnostic : string,
    main (Some (d, m, y))
    = Some (msg_banner ++ msg_prompt ++ diagnostic ++ msg_exiting, 1)%string
    /\ ((diagnostic = msg_year /\ (y < 1700 \/ y > 2500))
        \/ (diagnostic = msg_month /\ 1700 <= y <= 2500 /\ (m < 1 \/ m > 12))
        \/ (diagnostic = day_message (get_days_in_month m y) m y
            /\ 1700 <= y <= 2500 /\ 1 <= m <= 12
            /\ (d < 1 \/ d > get_days_in_month m y))).
Proof.
  intros Ev.
  pose proof (main_outcome (Some (d, m, y))) as Hmain. cbv beta iota in Hmain.
  rewrite Ev in Hmain.
  exists (vd_stdout (is_valid_date_run d m y)). split; [exact Hmain |].
  unfold is_valid_date in Ev.
  destruct (date_situation m y) as [Hy | [[Hy Hm] | [Hy Hm]]].
  - rewrite is_valid_date_run_year by assumption. left. split; [reflexivity | exact Hy].
  - rewrite is_valid_date_run_month by assumption.
    right. left. split; [reflexivity |]. split; assumption.
  - rewrite is_valid_date_run_day in Ev |- * by assumption. cbv zeta in *.
    pose proof (day_test d (get_days_in_month m y)) as Ht.
    destruct ((d <? 1) || (d >? get_days_in_month m y)); [| discriminate].
    right. right. split; [reflexivity |].
    split; [assumption |]. split; [assumption |]. apply Ht. reflexivity.
Qed.

Lemma main_refuses_invalid_date_witness :
  is_valid_date 31 2 2025 = false
  /\ exists diagnostic : string,
       main (Some (31, 2, 2025))
       = Some (msg_banner ++ msg_prompt ++ diagnostic ++ msg_exiting, 1)%string
       /\ ((diagnostic = msg_year /\ (2025 < 1700 \/ 2025 > 2500))
           \/ (diagnostic = msg_month
               /\ 1700 <= 2025 <= 2500 /\ (2 < 1 \/ 2 > 12))
           \/ (diagnostic = day_message (get_days_in_month 2 2025) 2 2025
               /\ 1700 <= 2025 <= 2500 /\ 1 <= 2 <= 12
               /\ (31 < 1 \/ 31 > get_days_in_month 2 2025))).
Proof.
  assert (Ev : is_valid_date 31 2 2025 = false) by reflexivity.
  split; [exact Ev |].
  exact (main_refuses_invalid_date 31 2 2025 Ev).
Defined.
